(** * filesystem-agent: a shallow embedding of the starter repository

    The repository consists of
    - [lib/agent.ts]: the agent object (a [ToolLoopAgent] built from a
      settings object),
    - [app/api/route.ts]: the [POST] handler that extracts a prompt from the
      chat messages, runs the agent and streams the result,
    - [app/form.tsx]: the chat form with its [handleSubmit] handler,
    - [README.md]: the tutorial, which lists the code of [lib/tools.ts]
      ([createBashTool]) and of [loadSandboxFiles].

    JavaScript strings are sequences of UTF-16 code units; they are modelled
    as [list N], so that [String.prototype.trim] can be given its ECMAScript
    meaning.  Objects used as dictionaries are [gmap]s keyed by such strings. *)

From Stdlib Require Import ZArith NArith Ascii String.
From stdpp Require Import gmap strings list.

(** ** JavaScript primitives used by the sources *)

Module JS.

(** A string literal of the source, as code units. *)
Definition lit (s : string) : list N :=
  (λ a, N_of_ascii a) <$> list_ascii_of_string s.

(** [a[i]] for an integer index: [undefined] outside of [0 .. length-1]. *)
Definition index {A} (l : list A) (i : Z) : option A :=
  if (i <? 0)%Z then None else l !! Z.to_nat i.

(** The [length] property of an array. *)
Definition length {A} (l : list A) : Z := Z.of_nat (List.length l).

(** Truthiness of a string: only the empty string is falsy. *)
Definition truthy (s : list N) : bool :=
  match s with [] => false | _ :: _ => true end.

(** [x || d] where [x] is a string or [undefined]. *)
Definition or_else (x : option (list N)) (d : list N) : list N :=
  match x with
  | Some s => if truthy s then s else d
  | None => d
  end.

(** [Array.prototype.join]: elements that are [undefined] contribute the
    empty string. *)
Fixpoint join (sep : list N) (l : list (option (list N))) : list N :=
  match l with
  | [] => []
  | [x] => default [] x
  | x :: rest => default [] x ++ sep ++ join sep rest
  end.

(** ECMAScript [WhiteSpace]: TAB, VT, FF, ZWNBSP and the code points of
    general category Zs. *)
Definition is_white_space (c : N) : bool :=
  bool_decide (c ∈ [0x9; 0xB; 0xC; 0xFEFF;
                    0x20; 0xA0; 0x1680; 0x2000; 0x2001; 0x2002; 0x2003;
                    0x2004; 0x2005; 0x2006; 0x2007; 0x2008; 0x2009; 0x200A;
                    0x202F; 0x205F; 0x3000]%N).

(** ECMAScript [LineTerminator]: LF, CR, LS, PS. *)
Definition is_line_terminator (c : N) : bool :=
  bool_decide (c ∈ [0xA; 0xD; 0x2028; 0x2029]%N).

(** What [trim] strips. *)
Definition is_trimmed (c : N) : bool :=
  is_white_space c || is_line_terminator c.

Fixpoint trimStart (s : list N) : list N :=
  match s with
  | c :: rest => if is_trimmed c then trimStart rest else s
  | [] => []
  end.

Definition trimEnd (s : list N) : list N :=
  reverse (trimStart (reverse s)).

(** [String.prototype.trim]. *)
Definition trim (s : list N) : list N := trimEnd (trimStart s).

(** Abrupt or normal completion of a (possibly asynchronous) call. *)
Inductive Error :=
| SyntaxError (message : list N)
| TypeError (message : list N)
| ThrownValue (message : list N).

Inductive Completion (A : Type) :=
| Normal (value : A)
| Throw (error : Error).
Arguments Normal {A} value.
Arguments Throw {A} error.

End JS.

(** ** The parts of the [ai] package the sources rely on *)

Module Ai.

(** [UIMessagePart], a union tagged by the [type] property.  Only the
    properties read in this repository are kept. *)
Inductive UIMessagePart :=
| TextUIPart (text : list N)
| ReasoningUIPart (text : list N)
| ToolUIPart (toolName toolCallId : list N)
| DynamicToolUIPart (toolName toolCallId : list N)
| SourceUrlUIPart (url : list N)
| SourceDocumentUIPart (title : list N)
| FileUIPart (mediaType url : list N)
| DataUIPart (name : list N)
| StepStartUIPart.

(** [part.type] *)
Definition part_type (p : UIMessagePart) : list N :=
  match p with
  | TextUIPart _ => JS.lit "text"
  | ReasoningUIPart _ => JS.lit "reasoning"
  | ToolUIPart name _ => JS.lit "tool-" ++ name
  | DynamicToolUIPart _ _ => JS.lit "dynamic-tool"
  | SourceUrlUIPart _ => JS.lit "source-url"
  | SourceDocumentUIPart _ => JS.lit "source-document"
  | FileUIPart _ _ => JS.lit "file"
  | DataUIPart name => JS.lit "data-" ++ name
  | StepStartUIPart => JS.lit "step-start"
  end.

(** [part.text]: [undefined] on the parts that have no such property. *)
Definition part_text (p : UIMessagePart) : option (list N) :=
  match p with
  | TextUIPart t | ReasoningUIPart t => Some t
  | _ => None
  end.

Inductive Role := system | user | assistant.

(** [UIMessage]. The handler reads [parts] through [?.], so a message whose
    [parts] property is missing is representable. *)
Record UIMessage := {
  id : list N;
  role : Role;
  parts : option (list UIMessagePart)
}.

(** [UIMessageChunk]: the three chunks the handler builds itself, and the
    others, which it only passes on. *)
Inductive UIMessageChunk :=
| text_start (id : list N)
| text_delta (id delta : list N)
| text_end (id : list N)
| other_chunk (type payload : list N).

End Ai.

(** ** Effects: state passing with abrupt completion

    [Eff S A] is a computation over a store [S] that either returns an [A]
    or throws; the store survives a throw, as effects already performed
    do in JavaScript. *)

Module Effect.
Import JS.

Definition Eff (S A : Type) : Type := S → Completion A * S.

#[global] Instance Eff_ret {S} : MRet (Eff S) :=
  λ A a s, (Normal a, s).

#[global] Instance Eff_bind {S} : MBind (Eff S) :=
  λ A B f m s,
    match m s with
    | (Normal a, s') => f a s'
    | (Throw e, s') => (Throw e, s')
    end.

(** [await c] / evaluating an expression whose completion is [c]. *)
Definition await {S A} (c : Completion A) : Eff S A := λ s, (c, s).

Definition modify {S} (f : S → S) : Eff S unit := λ s, (Normal (), f s).

(** [try { body } catch (error) { handler }] *)
Definition try_catch {S A} (body : Eff S A) (handler : Error → Eff S A)
  : Eff S A :=
  λ s,
    match body s with
    | (Normal a, s') => (Normal a, s')
    | (Throw e, s') => handler e s'
    end.

(** [for (const x of l) { body }] *)
Fixpoint for_of {S A} (l : list A) (body : A → Eff S unit) : Eff S unit :=
  match l with
  | [] => mret ()
  | x :: rest => body x ;; for_of rest body
  end.

End Effect.

(** ** The isolated execution environment ([@vercel/sandbox])

    The sandbox is remote; what the model keeps of it is its file system and
    the list of command lines it was asked to run.  What a command does is
    decided by the service, a parameter of the development. *)

Module Sandbox.
Import JS Effect.

(** The finished command: [stdout()], [stderr()] and [exitCode]. *)
Record CommandFinished := {
  stdout : list N;
  stderr : list N;
  exitCode : Z
}.

Record Sandbox := {
  files : gmap (list N) (list Byte.byte);
  commands : list (list N * list (list N))
}.

(** The remote service.  [exec]: from the sandbox's files and a command
    line, the outcome of the command and the files it leaves; [exec_failed]:
    the files left by a call of [runCommand] that throws; [refuse]: whether a
    write is rejected, and then with which error and which files left. *)
Class Service := {
  exec : gmap (list N) (list Byte.byte) → list N → list (list N) →
         Completion (CommandFinished * gmap (list N) (list Byte.byte));
  exec_failed : gmap (list N) (list Byte.byte) → list N → list (list N) →
                gmap (list N) (list Byte.byte);
  refuse : gmap (list N) (list Byte.byte) →
           list (list N * list Byte.byte) →
           option (Error * gmap (list N) (list Byte.byte))
}.

(** [sandbox.runCommand(command, args)] *)
Definition runCommand `{Service} (command : list N) (args : list (list N))
  : Eff Sandbox CommandFinished :=
  λ sb,
    let sb' := {| files := files sb;
                  commands := commands sb ++ [(command, args)] |} in
    match exec (files sb) command args with
    | Normal (result, files') =>
        (Normal result, {| files := files'; commands := commands sb' |})
    | Throw e =>
        (Throw e, {| files := exec_failed (files sb) command args;
                     commands := commands sb' |})
    end.

(** [sandbox.writeFiles(entries)], entries being [{ path, content }]: a
    remote call; when the service accepts it, every entry is in the files
    afterwards. *)
Definition writeFiles `{Service} (entries : list (list N * list Byte.byte))
  : Eff Sandbox unit :=
  λ sb,
    match refuse (files sb) entries with
    | None =>
        (Normal (),
         {| files := foldl (λ fs entry, <[entry.1 := entry.2]> fs)
                       (files sb) entries;
            commands := commands sb |})
    | Some (e, files') =>
        (Throw e, {| files := files'; commands := commands sb |})
    end.

End Sandbox.

(** ** [lib/tools.ts], as listed in README.md *)

Module Tools.
Import JS Effect Sandbox.

(** The zod types the schema uses. *)
Inductive ZodType :=
| z_string
| z_array (element : ZodType).

Record SchemaField := {
  field_type : ZodType;
  describe : list N
}.

(** What the model generates for the tool, and what the tool returns. *)
Record ToolInput := { command : list N; args : list (list N) }.
Record ToolOutput := {
  out_stdout : list N;
  out_stderr : list N;
  out_exitCode : Z
}.

(** [tool({ description, inputSchema, execute })]; [inputSchema] is the
    [z.object], its fields in the order they are written. *)
Record Tool := {
  description : list N;
  inputSchema : list (list N * SchemaField);
  execute : ToolInput → Eff Sandbox.Sandbox ToolOutput
}.

(** [createBashTool(sandbox)]; the sandbox it closes over is the store of
    [execute]. *)
Definition createBashTool `{Service} : Tool := {|
  description := lit "
      Execute bash commands to explore transcript and instruction files.
      Examples (not exhaustive): ls, cat, less, head, tail, grep
      ";
  inputSchema :=
    [ (lit "command",
       {| field_type := z_string;
          describe := lit "The bash command to execute" |});
      (lit "args",
       {| field_type := z_array z_string;
          describe := lit "Arguments to pass to the command" |}) ];
  execute := λ input,
    result ← runCommand (command input) (args input);
    let textResults := stdout result in
    let stderr := stderr result in
    mret {| out_stdout := textResults;
            out_stderr := stderr;
            out_exitCode := exitCode result |}
|}.

End Tools.

(** ** [lib/agent.ts] *)

Module Agent.
Import JS Effect.

(** The values found in the settings object given to [ToolLoopAgent]. *)
Inductive SettingValue :=
| StringValue (s : list N)
| ToolSetValue (tools : gmap (list N) Tools.Tool).

(** The result of [agent.stream]; [toUIMessageStream()] gives its chunks. *)
Record StreamTextResult := {
  toUIMessageStream : list Ai.UIMessageChunk
}.

(** The agent runtime of the [ai] package (model calls and the tool loop):
    what a run with given settings and prompt completes with. *)
Class AgentRuntime := {
  run : gmap (list N) SettingValue → list N → Completion StreamTextResult
}.

(** [new ToolLoopAgent(settings)] *)
Record ToolLoopAgent := {
  settings : gmap (list N) SettingValue
}.

(** The object literal of lines 4-8, properties in source order. *)
Definition agent_settings : gmap (list N) SettingValue :=
  <[lit "instructions" := StringValue (lit "")]>
    (<[lit "tools" := ToolSetValue ∅]>
       (<[lit "model" := StringValue (lit "anthropic/claude-opus-4.6")]> ∅)).

Definition agent : ToolLoopAgent := {| settings := agent_settings |}.

(** The [tools] of an agent: the tool set of its settings, if any. *)
Definition tools (a : ToolLoopAgent) : option (gmap (list N) Tools.Tool) :=
  match settings a !! lit "tools" with
  | Some (ToolSetValue ts) => Some ts
  | _ => None
  end.

(** What the host offers to the module when it is loaded: the local
    files ([fs/promises], [path], [process.cwd()]). *)
Class Host := {
  cwd : list N;
  path_join : list (list N) → list N;
  readdir : list N → Completion (list (list N));
  readFile : list N → Completion (list Byte.byte)
}.

(** The world around the module: the sandboxes that exist at the service. *)
Record World := {
  sandboxes : list Sandbox.Sandbox
}.

(** Loading [lib/agent.ts]: the import, the [new ToolLoopAgent(...)]
    expression and the export.  No sandbox is created and no file is
    read or written. *)
Definition load_module `{Host} : Eff World ToolLoopAgent :=
  mret agent.

(** [loadSandboxFiles(sandbox)], as listed in README.md. *)
Definition loadSandboxFiles `{Host} `{Sandbox.Service}
  : Eff Sandbox.Sandbox unit :=
  let callsDir := path_join [cwd; lit "lib"; lit "calls"] in
  callFiles ← await (readdir callsDir);
  for_of callFiles (λ file,
    let filePath := path_join [callsDir; file] in
    buffer ← await (readFile filePath);
    Sandbox.writeFiles [(lit "calls/" ++ file, buffer)]).

End Agent.

(** ** [app/api/route.ts] *)

Module Route.
Import JS Effect Ai Agent.

(** What the [messages] property of the parsed body holds: nothing
    ([undefined] or [null], also when the body itself is [null] or has no
    such property), an array of messages, or a primitive value.  Objects that
    are not arrays are left out: what the handler reads from them depends on
    their own [length] and index properties. *)
Inductive Primitive :=
| PBoolean (b : bool)
| PNumber
| PString (s : list N).

Inductive MessagesValue :=
| Absent
| Array (messages : list UIMessage)
| PrimitiveValue (p : Primitive).

(** The JSON body of a request, as the handler destructures it. *)
Record Body := {
  messages_value : MessagesValue
}.

(** The messages array of a body, when it has one. *)
Definition messages (b : Body) : option (list UIMessage) :=
  match messages_value b with
  | Array ms => Some ms
  | _ => None
  end.

(** A request: what [request.json()] completes with. *)
Record Request := {
  json : Completion Body
}.

(** The response: the chunks of its UI message stream. *)
Record Response := {
  body : list UIMessageChunk
}.

(** The store of the handler: the chunks written to the stream under
    construction, the calls of [console.error] and the prompts of the
    agent runs started. *)
Record Store := {
  written : list UIMessageChunk;
  console : list (list N * Error);
  runs : list (list N)
}.

(** [writer.write(chunk)] *)
Definition write (chunk : UIMessageChunk) : Eff Store unit :=
  modify (λ st, {| written := written st ++ [chunk];
                   console := console st; runs := runs st |}).

(** [writer.merge(stream)] *)
Definition merge (stream : list UIMessageChunk) : Eff Store unit :=
  modify (λ st, {| written := written st ++ stream;
                   console := console st; runs := runs st |}).

(** [console.error(label, error)] *)
Definition console_error (label : list N) (error : Error) : Eff Store unit :=
  modify (λ st, {| written := written st;
                   console := console st ++ [(label, error)];
                   runs := runs st |}).

(** [agent.stream({ prompt })] *)
Definition stream `{AgentRuntime} (a : ToolLoopAgent) (prompt : list N)
  : Eff Store StreamTextResult :=
  modify (λ st, {| written := written st; console := console st;
                   runs := runs st ++ [prompt] |}) ;;
  await (run (settings a) prompt).

(** Lines 12-19: the prompt of a messages array. *)
Definition prompt_of (messages : list UIMessage) : list N :=
  let lastMessage := index messages (JS.length messages - 1) in
  or_else
    (ps ← (lastMessage ≫= parts);
     Some (join (lit "
")
             (part_text <$>
                filter (λ part, part_type part = lit "text") ps)))
    (lit "").

(** Lines 23-43: the [execute] callback of the stream. *)
Definition execute `{AgentRuntime} (prompt : list N) : Eff Store unit :=
  try_catch
    (stream ← stream agent prompt;
     merge (toUIMessageStream stream))
    (λ error,
       console_error (lit "Agent error:") error ;;
       write (text_start (lit "error")) ;;
       write (text_delta (lit "error")
                (lit "An error occurred. Please try again.")) ;;
       write (text_end (lit "error"))).

(** [createUIMessageStream({ execute })]: runs [execute] with a fresh
    writer; the stream carries what was written, and an error chunk if
    [execute] throws. *)
Definition createUIMessageStream (execute : Eff Store unit)
  : Eff Store (list UIMessageChunk) :=
  λ st,
    let fresh := {| written := []; console := console st; runs := runs st |} in
    let (outcome, st') := execute fresh in
    let back := {| written := written st; console := console st';
                   runs := runs st' |} in
    match outcome with
    | Normal _ => (Normal (written st'), back)
    | Throw _ =>
        (Normal (written st' ++ [other_chunk (lit "error") (lit "")]), back)
    end.

(** [createUIMessageStreamResponse({ stream })] *)
Definition createUIMessageStreamResponse (stream : list UIMessageChunk)
  : Response :=
  {| body := stream |}.

(** Lines 12-19 on a [messages] that is a boolean, a number or a string:
    [messages.length] is [undefined] (the length, for a string), so the
    element read is [undefined] (the last character, for a non-empty string);
    neither has [parts], and the prompt is what [||] falls back to. *)
Definition prompt_of_primitive (p : Primitive) : list N :=
  let lastMessage : option (list N) :=
    match p with
    | PString s => (λ c, [c]) <$> index s (JS.length s - 1)
    | PBoolean _ | PNumber => None
    end in
  or_else (lastMessage ≫= λ _, None) (lit "").

(** [POST(request)].  Reading [messages.length] throws a [TypeError] when
    [messages] is [undefined] or [null]. *)
Definition POST `{AgentRuntime} (request : Request) : Eff Store Response :=
  b ← await (json request);
  prompt ← await (match messages_value b with
                  | Absent => Throw (TypeError (lit "messages is undefined"))
                  | Array messages => Normal (prompt_of messages)
                  | PrimitiveValue p => Normal (prompt_of_primitive p)
                  end);
  stream ← createUIMessageStream (execute prompt);
  mret (createUIMessageStreamResponse stream).

End Route.

(** ** [app/form.tsx] *)

Module Form.
Import JS.

(** The state around [handleSubmit]: the [input] state of the component,
    the messages handed to [sendMessage], and the submit event. *)
Record State := {
  input : list N;
  sent : list (list N);
  defaultPrevented : bool
}.

(** [handleSubmit(e)], lines 13-19. *)
Definition handleSubmit (st : State) : State :=
  let st := {| input := input st; sent := sent st;
               defaultPrevented := true |} in
  if negb (truthy (trim (input st))) then st
  else
    let text := input st in
    let st := {| input := lit ""; sent := sent st;
                 defaultPrevented := defaultPrevented st |} in
    {| input := input st; sent := sent st ++ [text];
       defaultPrevented := defaultPrevented st |}.

End Form.

(** ** What the prompt is meant to be, in the words of the description

    The newline-join of the [text] fields of the parts of type ['text'] of
    the last message, in order; the other parts are ignored. *)

Module Described.
Import Ai.

Fixpoint text_fields (ps : list UIMessagePart) : list (list N) :=
  match ps with
  | [] => []
  | TextUIPart t :: rest => t :: text_fields rest
  | _ :: rest => text_fields rest
  end.

Fixpoint newline_join (lines : list (list N)) : list N :=
  match lines with
  | [] => []
  | [l] => l
  | l :: rest => l ++ [10%N] ++ newline_join rest
  end.

Definition prompt_of_message (m : UIMessage) : list N :=
  newline_join (text_fields (default [] (parts m))).

(** A messages array with nothing to extract: it is empty, or its last
    message has no [parts], or none of type ['text']. *)
Definition degenerate (ms : list UIMessage) : Prop :=
  ms = [] ∨
  ∃ m, last ms = Some m ∧
       (parts m = None ∨
        ∃ ps, parts m = Some ps ∧ ∀ p, p ∈ ps → part_type p ≠ JS.lit "text").

(** The display string of a failed run, as a text-start / text-delta /
    text-end sequence under the one id ['error']. *)
Definition error_chunks : list UIMessageChunk :=
  [text_start (JS.lit "error");
   text_delta (JS.lit "error") (JS.lit "An error occurred. Please try again.");
   text_end (JS.lit "error")].


(** Empty or made of white space and line terminators only. *)
Definition blank (s : list N) : Prop :=
  Forall (λ c, JS.is_trimmed c = true) s.

End Described.

(** ** Concrete runtimes, hosts and inputs used in the examples *)

Module Fixtures.
Import JS Ai.

(** An agent runtime that answers with the prompt itself. *)
Definition echo_runtime : Agent.AgentRuntime := {|
  Agent.run := λ _ prompt,
    Normal {| Agent.toUIMessageStream :=
                [text_start (lit "0"); text_delta (lit "0") prompt;
                 text_end (lit "0")] |}
|}.

(** An agent runtime whose runs fail to start. *)
Definition failing_runtime : Agent.AgentRuntime := {|
  Agent.run := λ _ _, Throw (ThrownValue (lit "gateway unavailable"))
|}.

(** A service where every command prints its own name and succeeds. *)
Definition naming_service : Sandbox.Service := {|
  Sandbox.exec := λ fs command _,
    Normal ({| Sandbox.stdout := command; Sandbox.stderr := lit "";
               Sandbox.exitCode := 0 |}, fs);
  Sandbox.exec_failed := λ fs _ _, fs;
  Sandbox.refuse := λ _ _, None
|}.

(** A host whose [lib/calls] directory holds the single file [1.md]. *)
Definition one_call_host : Agent.Host := {|
  Agent.cwd := lit "/app";
  Agent.path_join := λ segments, join (lit "/") (Some <$> segments);
  Agent.readdir := λ dir,
    if decide (dir = lit "/app/lib/calls") then Normal [lit "1.md"]
    else Throw (ThrownValue (lit "ENOENT"));
  Agent.readFile := λ path,
    if decide (path = lit "/app/lib/calls/1.md")
    then Normal [Byte.x68; Byte.x69]
    else Throw (ThrownValue (lit "ENOENT"))
|}.

Definition empty_sandbox : Sandbox.Sandbox :=
  {| Sandbox.files := ∅; Sandbox.commands := [] |}.

Definition empty_store : Route.Store :=
  {| Route.written := []; Route.console := []; Route.runs := [] |}.

Definition user_message (ps : list UIMessagePart) : UIMessage :=
  {| id := lit "m1"; role := user; parts := Some ps |}.

Definition request_of (ms : list UIMessage) : Route.Request :=
  {| Route.json := Normal {| Route.messages_value := Route.Array ms |} |}.

Definition hello_parts : list UIMessagePart :=
  [StepStartUIPart; TextUIPart (lit "how did"); ReasoningUIPart (lit "hm");
   TextUIPart (lit "the deal progress?")].

End Fixtures.

(** ** More of [String.prototype], as the form uses it *)

Module JSString.
Import JS.

(** [s.startsWith(pat)] *)
Fixpoint startsWith (s pat : list N) : bool :=
  match pat, s with
  | [], _ => true
  | _ :: _, [] => false
  | p :: pat', c :: s' => if decide (p = c) then startsWith s' pat' else false
  end.

(** [s.replace(pat, rep)] for a string pattern: the first occurrence of
    [pat] is replaced.  The replacement is taken as it is, which is what
    JavaScript does when it holds no [$]. *)
Fixpoint replace (s pat rep : list N) : list N :=
  if startsWith s pat then rep ++ drop (List.length pat) s
  else match s with
       | [] => []
       | c :: s' => c :: replace s' pat rep
       end.

(** [x || y] where both are strings or [undefined]. *)
Definition or_undefined (x y : option (list N)) : option (list N) :=
  match x with
  | Some s => if truthy s then Some s else y
  | None => y
  end.

End JSString.

(** ** The rendering of a message part in [app/form.tsx], lines 28-83 *)

Module FormView.
Import JS JSString.

(** The shape the form casts a tool part to (lines 37-48), together with
    the [text] property it reads from a text part. *)
Record ToolInputView := {
  command : option (list N);
  args : option (list (list N))
}.

Record ToolOutputView := {
  stdout : option (list N);
  stderr : option (list N);
  exitCode : option Z
}.

Record PartView := {
  type : list N;
  text : option (list N);
  toolCallId : list N;
  toolName : option (list N);
  state : option (list N);
  input : option ToolInputView;
  output : option ToolOutputView
}.

(** What a part is rendered as: the text block, the tool block (the name
    between brackets, the [$ command] element when there is one, the output
    element when there is one), or [null]. *)
Inductive Rendered :=
| TextBlock (content : option (list N))
| ToolBlock (name : list N) (commandLine : option (list N))
            (outputText : option (list N))
| Nothing.

(** Lines 50-51. *)
Definition toolName_of (toolPart : PartView) : list N :=
  or_else (toolName toolPart) (replace (type toolPart) (lit "tool-") (lit "")).

(** Lines 54-58. *)
Definition bashCommand (toolPart : PartView) : list N :=
  match input toolPart with
  | Some i =>
      trim (or_else (command i) (lit "") ++ lit " " ++
            join (lit " ") (Some <$> default [] (args i)))
  | None => lit ""
  end.

(** Lines 71-78: the content of the [pre] element, when it is rendered. *)
Definition outputText_of (toolPart : PartView) : option (list N) :=
  match state toolPart, output toolPart with
  | Some s, Some o =>
      if decide (s = lit "output-available")
      then Some (or_else (or_undefined (stdout o) (stderr o))
                   (lit "(no output)"))
      else None
  | _, _ => None
  end.

(** The callback of [message.parts.map], lines 28-83. *)
Definition renderPart (part : PartView) : Rendered :=
  if decide (type part = lit "text") then TextBlock (text part)
  else if startsWith (type part) (lit "tool-") then
    let toolName := toolName_of part in
    let bashCommand := bashCommand part in
    ToolBlock toolName
      (if truthy bashCommand then Some bashCommand else None)
      (outputText_of part)
  else Nothing.

End FormView.

(** ** The finished [lib/agent.ts] of the tutorial (README.md, "Complete
    agent.ts") *)

Module Tutorial.
Import JS Effect Agent.

(** [Sandbox.create()]: the service hands out a new sandbox with some file
    system, or fails; [leftover] gives the sandboxes at the service after a
    call that failed. *)
Class Provisioning := {
  created : Completion (gmap (list N) (list Byte.byte));
  leftover : list Sandbox.Sandbox → list Sandbox.Sandbox
}.

(** The new sandbox joins those of the service; its handle is its
    position. *)
Definition Sandbox_create `{Provisioning} : Eff World nat :=
  λ w,
    match created with
    | Normal fs =>
        (Normal (List.length (sandboxes w)),
         {| sandboxes :=
              sandboxes w ++ [{| Sandbox.files := fs;
                                 Sandbox.commands := [] |}] |})
    | Throw e => (Throw e, {| sandboxes := leftover (sandboxes w) |})
    end.

(** A computation on one sandbox, run on the sandbox a handle names. *)
Definition on_sandbox {A} (handle : nat) (m : Eff Sandbox.Sandbox A)
  : Eff World A :=
  λ w,
    match sandboxes w !! handle with
    | Some sb =>
        let (outcome, sb') := m sb in
        (outcome, {| sandboxes := <[handle := sb']> (sandboxes w) |})
    | None => (Throw (ThrownValue (lit "no such sandbox")), w)
    end.

(** [createBashTool(sandbox)] as the module uses it: the tool, and the
    sandbox its [execute] closes over. *)
Record BoundTool := {
  tool : Tools.Tool;
  sandbox : nat
}.

(** A call of a bound tool: its [execute] runs on its sandbox. *)
Definition call (t : BoundTool) (input : Tools.ToolInput)
  : Eff World Tools.ToolOutput :=
  on_sandbox (sandbox t) (Tools.execute (tool t) input).

(** The settings object and the agent, with tools bound to a sandbox. *)
Inductive SettingValue :=
| StringValue (s : list N)
| ToolSetValue (tools : gmap (list N) BoundTool).

Record ToolLoopAgent := {
  settings : gmap (list N) SettingValue
}.

Definition tools (a : ToolLoopAgent) : option (gmap (list N) BoundTool) :=
  match settings a !! lit "tools" with
  | Some (ToolSetValue ts) => Some ts
  | _ => None
  end.

Definition INSTRUCTIONS : list N := lit "
You are a helpful assistant that answers questions about customer calls. Use bashTool to explore the files and find relevant information pertaining to the user's query. Using the information you find, craft a response for the user and output it as text.
".

Definition MODEL : list N := lit "anthropic/claude-opus-4.6".

(** The module body: create the sandbox, load the files, build the agent. *)
Definition load_module `{Host} `{Sandbox.Service} `{Provisioning}
  : Eff World ToolLoopAgent :=
  sandbox ← Sandbox_create;
  on_sandbox sandbox loadSandboxFiles ;;
  mret {| settings :=
            <[lit "tools" :=
                ToolSetValue
                  {[ lit "bashTool" :=
                       {| tool := Tools.createBashTool;
                          sandbox := sandbox |} ]}]>
              (<[lit "instructions" := StringValue INSTRUCTIONS]>
                 (<[lit "model" := StringValue MODEL]> ∅)) |}.

End Tutorial.

(** ** Further inputs used in the examples *)

Module MoreFixtures.
Import JS.


(** A service handing out empty sandboxes. *)
Definition empty_provisioning : Tutorial.Provisioning := {|
  Tutorial.created := Normal ∅;
  Tutorial.leftover := λ sbs, sbs
|}.

(** A tool part as the agent's stream delivers it for a finished [ls]. *)
Definition ls_part : FormView.PartView := {|
  FormView.type := lit "tool-bashTool";
  FormView.text := None;
  FormView.toolCallId := lit "call_1";
  FormView.toolName := None;
  FormView.state := Some (lit "output-available");
  FormView.input :=
    Some {| FormView.command := Some (lit "ls");
            FormView.args := Some [lit "-l"; lit "calls"] |};
  FormView.output :=
    Some {| FormView.stdout := Some (lit "");
            FormView.stderr := Some (lit "ls: cannot access");
            FormView.exitCode := Some 2%Z |}
|}.

End MoreFixtures.

(** * Properties *)

(** ** JavaScript primitives *)

Section JsLemmas.
Import JS.

Lemma index_last {A} (l : list A) : index l (JS.length l - 1) = last l.
Proof.
  unfold index, JS.length. destruct l as [|x l]; [done|].
  replace (Z.of_nat (List.length (x :: l)) - 1)%Z
    with (Z.of_nat (List.length l)) by (simpl; lia).
  destruct (Z.ltb_spec (Z.of_nat (List.length l)) 0); [lia|].
  rewrite Nat2Z.id, last_lookup. done.
Qed.

Lemma trimStart_nil (s : list N) :
  trimStart s = [] ↔ Forall (λ c, is_trimmed c = true) s.
Proof.
  induction s as [|c s IH]; simpl.
  - split; [constructor | done].
  - destruct (is_trimmed c) eqn:Hc.
    + rewrite IH. split; [by constructor | by inversion 1].
    + split; [done | inversion 1; congruence].
Qed.

Lemma trimStart_blank_iff (s : list N) :
  Forall (λ c, is_trimmed c = true) (trimStart s) ↔
  Forall (λ c, is_trimmed c = true) s.
Proof.
  induction s as [|c s IH]; simpl; [done|].
  destruct (is_trimmed c) eqn:Hc; [|done].
  rewrite IH. split; [by constructor | by inversion 1].
Qed.

Lemma trim_nil (s : list N) :
  trim s = [] ↔ Forall (λ c, is_trimmed c = true) s.
Proof.
  unfold trim, trimEnd.
  rewrite <- (reverse_involutive []), (inj_iff reverse).
  change (reverse []) with (@nil N).
  rewrite trimStart_nil, Forall_reverse. apply trimStart_blank_iff.
Qed.

Lemma truthy_trim (s : list N) :
  truthy (trim s) = false ↔ Forall (λ c, is_trimmed c = true) s.
Proof.
  rewrite <- trim_nil. unfold truthy. by destruct (trim s).
Qed.

End JsLemmas.

(** ** The prompt extraction of [app/api/route.ts] *)

Section PromptLemmas.
Import JS Ai Route Described.

Lemma part_type_text (p : UIMessagePart) :
  part_type p = lit "text" ↔ ∃ t, p = TextUIPart t.
Proof.
  split; [|by intros [t ->]].
  destruct p; intros H; try discriminate H; eauto.
Qed.

Lemma filter_text_parts (ps : list UIMessagePart) :
  part_text <$> filter (λ part, part_type part = lit "text") ps
  = Some <$> text_fields ps.
Proof.
  induction ps as [|p ps IH]; [done|].
  rewrite filter_cons. destruct (decide (part_type p = lit "text")) as [Hp|Hp].
  - apply part_type_text in Hp as [t ->]. by rewrite fmap_cons, IH.
  - rewrite IH. by destruct p.
Qed.

Lemma join_defined (lines : list (list N)) :
  join [10%N] (Some <$> lines) = newline_join lines.
Proof.
  induction lines as [|l [|l' rest] IH]; [done..|].
  change (join [10%N] (Some <$> l :: l' :: rest))
    with (l ++ [10%N] ++ join [10%N] (Some <$> l' :: rest)).
  by rewrite IH.
Qed.

(** The source's extraction against the described one. *)
Lemma prompt_of_last (ms : list UIMessage) :
  prompt_of ms = from_option prompt_of_message [] (last ms).
Proof.
  unfold prompt_of. rewrite index_last.
  destruct (last ms) as [m|]; [|done]. simpl.
  unfold prompt_of_message. destruct (parts m) as [ps|]; [|done]. simpl.
  set (joined := join _ _).
  assert (joined = newline_join (text_fields ps)) as ->.
  { subst joined. rewrite filter_text_parts. apply join_defined. }
  by destruct (newline_join _).
Qed.

Lemma text_fields_none (ps : list UIMessagePart) :
  (∀ p, p ∈ ps → part_type p ≠ lit "text") → text_fields ps = [].
Proof.
  induction ps as [|p ps IH]; [done|]. intros H.
  assert (text_fields ps = []) as Hps.
  { apply IH. intros q Hq. apply H. by right. }
  destruct p; simpl; try done.
  exfalso. eapply H; [by left | done].
Qed.

Lemma prompt_of_degenerate (ms : list UIMessage) :
  degenerate ms → prompt_of ms = lit "".
Proof.
  rewrite prompt_of_last.
  intros [-> | (m & -> & [Hm | (ps & Hm & Hps)])]; [done|..];
    simpl; unfold prompt_of_message; rewrite Hm; simpl; [done|].
  by rewrite text_fields_none.
Qed.

End PromptLemmas.

(** ** The handler of [app/api/route.ts] *)

Section HandlerLemmas.
Import JS Effect Ai Agent Route Described.
Context `{AgentRuntime}.

(** [execute] never throws: it returns after merging the agent's stream, or
    after logging the error and writing the three chunks. *)
Lemma execute_run (prompt : list N) (st : Store) :
  execute prompt st =
  (Normal (),
   match run (settings agent) prompt with
   | Normal result =>
       {| written := written st ++ toUIMessageStream result;
          console := console st;
          runs := runs st ++ [prompt] |}
   | Throw e =>
       {| written := written st ++ error_chunks;
          console := console st ++ [(lit "Agent error:", e)];
          runs := runs st ++ [prompt] |}
   end).
Proof.
  unfold execute, try_catch, stream, mbind, Eff_bind, await, modify.
  destruct (run (settings agent) prompt) as [result|e]; simpl; [done|].

  unfold error_chunks, write, modify; simpl. by rewrite <- !app_assoc.
Qed.

(** [POST] once the prompt has been extracted. *)
Lemma POST_started (request : Request) (b : Body) (prompt : list N)
    (st : Store) :
  json request = Normal b →
  match messages_value b with
  | Absent => False
  | Array ms => prompt = prompt_of ms
  | PrimitiveValue p => prompt = prompt_of_primitive p
  end →
  POST request st =
  (Normal {| body := match run (settings agent) prompt with
                     | Normal result => toUIMessageStream result
                     | Throw _ => error_chunks
                     end |},
   {| written := written st;
      console := match run (settings agent) prompt with
                 | Normal _ => console st
                 | Throw e => console st ++ [(lit "Agent error:", e)]
                 end;
      runs := runs st ++ [prompt] |}).
Proof.
  intros Hjson Hprompt.
  unfold POST, mbind, Eff_bind, await, createUIMessageStream.
  rewrite Hjson.
  destruct (messages_value b) as [|ms|p]; [done|subst prompt..];
    rewrite execute_run;
    unfold mret, Eff_ret, createUIMessageStreamResponse;
    by destruct (run (settings agent) _).
Qed.

Lemma messages_array (b : Body) (ms : list UIMessage) :
  messages b = Some ms ↔ messages_value b = Array ms.
Proof.
  unfold messages. destruct (messages_value b); split; congruence.
Qed.

(** [POST] on a body with a messages array. *)
Lemma POST_run (request : Request) (b : Body) (ms : list UIMessage)
    (st : Store) :
  json request = Normal b → messages b = Some ms →
  POST request st =
  (Normal {| body := match run (settings agent) (prompt_of ms) with
                     | Normal result => toUIMessageStream result
                     | Throw _ => error_chunks
                     end |},
   {| written := written st;
      console := match run (settings agent) (prompt_of ms) with
                 | Normal _ => console st
                 | Throw e => console st ++ [(lit "Agent error:", e)]
                 end;
      runs := runs st ++ [prompt_of ms] |}).
Proof.
  intros Hjson Hms%messages_array.
  apply POST_started with b; [done|]. by rewrite Hms.
Qed.

Lemma prompt_of_primitive_empty (p : Primitive) :
  prompt_of_primitive p = lit "".
Proof.
  unfold prompt_of_primitive. destruct p as [| |s]; [done..|].
  by destruct (index s (JS.length s - 1)).
Qed.

(** [POST] on a body whose [messages] is a boolean, a number or a string:
    the run starts with the empty prompt. *)
Lemma POST_primitive (request : Request) (b : Body) (p : Primitive)
    (st : Store) :
  json request = Normal b → messages_value b = PrimitiveValue p →
  POST request st =
  (Normal {| body := match run (settings agent) (lit "") with
                     | Normal result => toUIMessageStream result
                     | Throw _ => error_chunks
                     end |},
   {| written := written st;
      console := match run (settings agent) (lit "") with
                 | Normal _ => console st
                 | Throw e => console st ++ [(lit "Agent error:", e)]
                 end;
      runs := runs st ++ [lit ""] |}).
Proof.
  intros Hjson Hp. apply POST_started with b; [done|].
  by rewrite Hp, prompt_of_primitive_empty.
Qed.

(** Failures before the stream is built are not handled: they reject the
    handler's promise. *)
Lemma POST_json_throws (request : Request) (e : Error) (st : Store) :
  json request = Throw e → POST request st = (Throw e, st).
Proof.
  intros Hjson. unfold POST, mbind, Eff_bind, await. by rewrite Hjson.
Qed.

Lemma POST_no_messages (request : Request) (b : Body) (st : Store) :
  json request = Normal b → messages_value b = Absent →
  ∃ message, POST request st = (Throw (TypeError message), st).
Proof.
  intros Hjson Hms. unfold POST, mbind, Eff_bind, await.
  rewrite Hjson, Hms. eauto.
Qed.

End HandlerLemmas.

(** ** Claims about [app/api/route.ts] *)

Section RouteClaims.
Import JS Effect Ai Agent Route Described.

(** C3: for every POST request whose body has a messages array, the handler
    extracts the prompt from the messages, starts exactly one agent run with
    that prompt, and returns (does not throw) a stream response; when the run
    starts, the body of the response is the agent's UI message stream. *)
Theorem POST_streams_agent_run `{AgentRuntime}
    (request : Request) (b : Body) (ms : list UIMessage) (st : Store) :
  json request = Normal b → messages b = Some ms →
  ∃ response st',
    POST request st = (Normal response, st') ∧
    runs st' = runs st ++ [prompt_of ms] ∧
    prompt_of ms = from_option prompt_of_message [] (last ms) ∧
    ∀ result, run (settings agent) (prompt_of ms) = Normal result →
              body response = toUIMessageStream result.
Proof.
  intros Hjson Hms. eexists _, _.
  split; [by apply POST_run with b|]. simpl.
  split; [done|]. split; [apply prompt_of_last|].
  by intros result ->.
Qed.

Lemma POST_streams_agent_run_witness :
  ∃ response st',
    POST (H := Fixtures.echo_runtime)
      (Fixtures.request_of [Fixtures.user_message Fixtures.hello_parts])
      Fixtures.empty_store = (Normal response, st') ∧
    runs st' = [lit "how did
the deal progress?"] ∧
    body response =
      [text_start (lit "0");
       text_delta (lit "0") (lit "how did
the deal progress?");
       text_end (lit "0")].
Proof.
  destruct (POST_streams_agent_run (H := Fixtures.echo_runtime)
              (Fixtures.request_of [Fixtures.user_message Fixtures.hello_parts])
              {| messages_value :=
                   Array [Fixtures.user_message Fixtures.hello_parts] |}
              [Fixtures.user_message Fixtures.hello_parts]
              Fixtures.empty_store eq_refl eq_refl)
    as (response & st' & HPOST & Hruns & _ & Hbody).
  exists response, st'. split; [exact HPOST|]. split; [exact Hruns|].
  exact (Hbody _ eq_refl).
Defined.

(** C4: the handler has one failure-handling path, the catch around the
    start of the agent run.  For every request in which starting the run
    throws, the handler catches the error: it logs it, writes the fixed
    display string to the UI stream as text-start, text-delta, text-end under
    the common id 'error', does not rethrow, and still returns the stream
    response.  No other failure is handled: when the body cannot be read, or
    its messages are undefined or null, the handler throws (for the body, the
    very error of [request.json()]) with nothing written, logged or run; and
    when the run starts, the display string is not written and nothing is
    logged. *)
Theorem POST_catches_agent_error `{AgentRuntime}
    (request : Request) (st : Store) :
  (∀ b ms e,
     json request = Normal b → messages b = Some ms →
     run (settings agent) (prompt_of ms) = Throw e →
     ∃ response st',
       POST request st = (Normal response, st') ∧
       body response =
         [text_start (lit "error");
          text_delta (lit "error")
            (lit "An error occurred. Please try again.");
          text_end (lit "error")] ∧
       console st' = console st ++ [(lit "Agent error:", e)] ∧
       runs st' = runs st ++ [prompt_of ms]) ∧
  (∀ e, json request = Throw e → POST request st = (Throw e, st)) ∧
  (∀ b, json request = Normal b → messages_value b = Absent →
        ∃ message, POST request st = (Throw (TypeError message), st)) ∧
  (∀ b ms result,
     json request = Normal b → messages b = Some ms →
     run (settings agent) (prompt_of ms) = Normal result →
     ∃ response st',
       POST request st = (Normal response, st') ∧
       body response = toUIMessageStream result ∧
       console st' = console st ∧
       runs st' = runs st ++ [prompt_of ms]).
Proof.
  split; [|split; [|split]].
  - intros b ms e Hjson Hms Hrun.
    rewrite (POST_run request b ms st Hjson Hms), Hrun.
    by eexists _, _.
  - intros e. apply POST_json_throws.
  - intros b. apply POST_no_messages.
  - intros b ms result Hjson Hms Hrun.
    rewrite (POST_run request b ms st Hjson Hms), Hrun.
    by eexists _, _.
Qed.

Lemma POST_catches_agent_error_witness :
  (∃ response st',
     POST (H := Fixtures.failing_runtime)
       (Fixtures.request_of [Fixtures.user_message Fixtures.hello_parts])
       Fixtures.empty_store = (Normal response, st') ∧
     body response = error_chunks ∧
     console st' = [(lit "Agent error:",
                     ThrownValue (lit "gateway unavailable"))]) ∧
  POST (H := Fixtures.failing_runtime)
    {| json := Throw (SyntaxError (lit "Unexpected end of JSON input")) |}
    Fixtures.empty_store
  = (Throw (SyntaxError (lit "Unexpected end of JSON input")),
     Fixtures.empty_store) ∧
  (∃ message,
     POST (H := Fixtures.failing_runtime)
       {| json := Normal {| messages_value := Absent |} |}
       Fixtures.empty_store
     = (Throw (TypeError message), Fixtures.empty_store)) ∧
  (∃ response st',
     POST (H := Fixtures.echo_runtime)
       (Fixtures.request_of [Fixtures.user_message [TextUIPart (lit "hi")]])
       Fixtures.empty_store = (Normal response, st') ∧
     body response =
       [text_start (lit "0"); text_delta (lit "0") (lit "hi");
        text_end (lit "0")] ∧
     console st' = []).
Proof.
  split; [|split; [|split]].
  - destruct (proj1 (POST_catches_agent_error (H := Fixtures.failing_runtime)
              (Fixtures.request_of [Fixtures.user_message Fixtures.hello_parts])
              Fixtures.empty_store)
              {| messages_value :=
                   Array [Fixtures.user_message Fixtures.hello_parts] |}
              [Fixtures.user_message Fixtures.hello_parts]
              (ThrownValue (lit "gateway unavailable"))
              eq_refl eq_refl eq_refl)
      as (response & st' & HPOST & Hbody & Hconsole & _).
    exists response, st'. split; [exact HPOST|]. split; [exact Hbody|].
    exact Hconsole.
  - exact (proj1 (proj2 (POST_catches_agent_error
             (H := Fixtures.failing_runtime)
             {| json := Throw (SyntaxError
                                 (lit "Unexpected end of JSON input")) |}
             Fixtures.empty_store)) _ eq_refl).
  - exact (proj1 (proj2 (proj2 (POST_catches_agent_error
             (H := Fixtures.failing_runtime)
             {| json := Normal {| messages_value := Absent |} |}
             Fixtures.empty_store))) _ eq_refl eq_refl).
  - destruct (proj2 (proj2 (proj2 (POST_catches_agent_error
              (H := Fixtures.echo_runtime)
              (Fixtures.request_of
                 [Fixtures.user_message [TextUIPart (lit "hi")]])
              Fixtures.empty_store)))
              {| messages_value :=
                   Array [Fixtures.user_message [TextUIPart (lit "hi")]] |}
              [Fixtures.user_message [TextUIPart (lit "hi")]]
              _ eq_refl eq_refl eq_refl)
      as (response & st' & HPOST & Hbody & Hconsole & _).
    exists response, st'. split; [exact HPOST|]. split; [exact Hbody|].
    exact Hconsole.
Defined.

(** C7: prompt extraction is total on degenerate input: when the messages
    array is empty, or its last message has no parts or no text parts, the
    extracted prompt is the empty string, and the handler does not throw: it
    starts the run with the empty prompt and returns a response. *)
Theorem prompt_of_degenerate_is_empty `{AgentRuntime}
    (request : Request) (b : Body) (ms : list UIMessage) (st : Store) :
  json request = Normal b → messages b = Some ms → degenerate ms →
  prompt_of ms = lit "" ∧
  ∃ response st',
    POST request st = (Normal response, st') ∧
    runs st' = runs st ++ [lit ""].
Proof.
  intros Hjson Hms Hdeg.
  pose proof (prompt_of_degenerate ms Hdeg) as Hprompt.
  split; [done|].
  rewrite (POST_run request b ms st Hjson Hms), Hprompt.
  by eexists _, _.
Qed.

Lemma prompt_of_degenerate_is_empty_witness :
  prompt_of [Fixtures.user_message [StepStartUIPart; ReasoningUIPart (lit "hm")]]
    = lit "" ∧
  prompt_of [] = lit "" ∧
  prompt_of [{| id := lit "m0"; role := user; parts := None |}] = lit "".
Proof.
  split; [|split].
  - refine (proj1 (prompt_of_degenerate_is_empty (H := Fixtures.echo_runtime)
              (Fixtures.request_of _) _ _ Fixtures.empty_store
              eq_refl eq_refl _)).
    right. eexists. split; [reflexivity|]. right. eexists.
    split; [reflexivity|]. intros p Hp.
    apply list_elem_of_In in Hp. simpl in Hp.
    destruct Hp as [<-|[<-|[]]]; discriminate.
  - refine (proj1 (prompt_of_degenerate_is_empty (H := Fixtures.echo_runtime)
              (Fixtures.request_of _) _ _ Fixtures.empty_store
              eq_refl eq_refl _)).
    by left.
  - refine (proj1 (prompt_of_degenerate_is_empty (H := Fixtures.echo_runtime)
              (Fixtures.request_of _) _ _ Fixtures.empty_store
              eq_refl eq_refl _)).
    right. eexists. split; [reflexivity|]. by left.
Defined.

(** C8: the prompt passed to the agent depends only on the last element of
    the messages array: two requests whose messages arrays have the same last
    message start their runs with the same prompt; and that prompt is the
    newline-join of the text fields of the last message's parts of type
    'text', in their order, the other parts being ignored. *)
Theorem prompt_depends_on_last_message `{AgentRuntime}
    (request1 request2 : Request) (b1 b2 : Body)
    (ms1 ms2 : list UIMessage) (m : UIMessage) (st : Store) :
  json request1 = Normal b1 → messages b1 = Some ms1 →
  json request2 = Normal b2 → messages b2 = Some ms2 →
  last ms1 = Some m → last ms2 = Some m →
  prompt_of ms1 = prompt_of ms2 ∧
  prompt_of ms1 = newline_join (text_fields (default [] (parts m))) ∧
  runs (POST request1 st).2 = runs st ++ [prompt_of_message m] ∧
  runs (POST request2 st).2 = runs st ++ [prompt_of_message m].
Proof.
  intros Hjson1 Hms1 Hjson2 Hms2 Hlast1 Hlast2.
  rewrite (POST_run request1 b1 ms1), (POST_run request2 b2 ms2) by done.
  rewrite !prompt_of_last, Hlast1, Hlast2. done.
Qed.

Lemma prompt_depends_on_last_message_witness :
  prompt_of [Fixtures.user_message [TextUIPart (lit "old")];
             Fixtures.user_message Fixtures.hello_parts]
  = prompt_of [Fixtures.user_message Fixtures.hello_parts] ∧
  prompt_of [Fixtures.user_message [TextUIPart (lit "old")];
             Fixtures.user_message Fixtures.hello_parts]
  = lit "how did
the deal progress?".
Proof.
  destruct (prompt_depends_on_last_message (H := Fixtures.echo_runtime)
              (Fixtures.request_of _) (Fixtures.request_of _) _ _
              [Fixtures.user_message [TextUIPart (lit "old")];
               Fixtures.user_message Fixtures.hello_parts]
              [Fixtures.user_message Fixtures.hello_parts]
              (Fixtures.user_message Fixtures.hello_parts)
              Fixtures.empty_store
              eq_refl eq_refl eq_refl eq_refl eq_refl eq_refl)
    as (Hsame & Hjoin & _).
  split; [exact Hsame | exact Hjoin].
Defined.

End RouteClaims.

(** ** Claims about [app/form.tsx] *)

Section FormClaims.
Import JS Form Described.

(** C9: in the submit handler, when the input is empty or made of white
    space only, no message is sent and the input state is unchanged; for
    every other input, the input state is reset to the empty string and the
    message sent carries the original, untrimmed text. *)
Theorem handleSubmit_blank_or_send (st : State) :
  (blank (input st) →
     input (handleSubmit st) = input st ∧
     sent (handleSubmit st) = sent st) ∧
  (¬ blank (input st) →
     input (handleSubmit st) = lit "" ∧
     sent (handleSubmit st) = sent st ++ [input st]).
Proof.
  unfold handleSubmit, blank; simpl.
  destruct (truthy (trim (input st))) eqn:Htrim; simpl.
  - split; [|done]. intros Hblank.
    apply truthy_trim in Hblank. congruence.
  - split; [done|]. intros Hsome. destruct Hsome. by apply truthy_trim.
Qed.

Lemma handleSubmit_blank_or_send_witness :
  (input (handleSubmit {| input := [0x20; 0x9; 0xA0; 0xA]%N; sent := [];
                          defaultPrevented := false |})
     = [0x20; 0x9; 0xA0; 0xA]%N ∧
   sent (handleSubmit {| input := [0x20; 0x9; 0xA0; 0xA]%N; sent := [];
                         defaultPrevented := false |}) = []) ∧
  (input (handleSubmit {| input := lit " hi "; sent := [];
                          defaultPrevented := false |}) = lit "" ∧
   sent (handleSubmit {| input := lit " hi "; sent := [];
                         defaultPrevented := false |}) = [lit " hi "]).
Proof.
  split.
  - apply (proj1 (handleSubmit_blank_or_send
             {| input := [0x20; 0x9; 0xA0; 0xA]%N; sent := [];
                defaultPrevented := false |})).
    unfold blank; simpl. repeat constructor.
  - apply (proj2 (handleSubmit_blank_or_send
             {| input := lit " hi "; sent := [];
                defaultPrevented := false |})).
    unfold blank; simpl. intros Hblank.
    inversion Hblank as [|? ? _ Hrest]. inversion Hrest as [|? ? Hh _].
    discriminate Hh.
Defined.

End FormClaims.

(** ** [lib/agent.ts] and the tutorial's listings *)

Section AgentLemmas.
Import JS Effect Sandbox Tools Agent Described.

Lemma agent_tools : tools agent = Some ∅.
Proof. reflexivity. Qed.

Lemma for_of_cons {S A} (x : A) (l : list A) (body : A → Eff S unit)
    (s : S) :
  for_of (x :: l) body s =
  match body x s with
  | (Normal _, s') => for_of l body s'
  | (Throw e, s') => (Throw e, s')
  end.
Proof. reflexivity. Qed.

(** One entry of the copy loop. *)
Lemma copy_entry `{Host} `{Service} (dir file : list N)
    (sb : Sandbox.Sandbox) :
  (buffer ← await (readFile (path_join [dir; file]));
   writeFiles [(lit "calls/" ++ file, buffer)]) sb =
  match readFile (path_join [dir; file]) with
  | Normal buffer =>
      match refuse (files sb) [(lit "calls/" ++ file, buffer)] with
      | None =>
          (Normal (),
           {| files := <[lit "calls/" ++ file := buffer]> (files sb);
              commands := commands sb |})
      | Some (e, files') =>
          (Throw e, {| files := files'; commands := commands sb |})
      end
  | Throw e => (Throw e, sb)
  end.
Proof.
  unfold mbind, Eff_bind, await, writeFiles.
  destruct (readFile (path_join [dir; file])) as [buffer|e]; [|done].
  by destruct (refuse (files sb) [(lit "calls/" ++ file, buffer)])
    as [[e fs']|].
Qed.

(** What a completed loop has done. *)
Lemma copy_loop_completed `{Host} `{Service} (dir : list N)
    (callFiles : list (list N)) (sb sb' : Sandbox.Sandbox) (u : unit) :
  for_of callFiles (λ file,
    buffer ← await (readFile (path_join [dir; file]));
    writeFiles [(lit "calls/" ++ file, buffer)]) sb = (Normal u, sb') →
  commands sb' = commands sb ∧
  (∀ file, file ∈ callFiles →
     ∃ buffer, readFile (path_join [dir; file]) = Normal buffer ∧
               files sb' !! (lit "calls/" ++ file) = Some buffer) ∧
  (∀ path, (∀ file, file ∈ callFiles → path ≠ lit "calls/" ++ file) →
           files sb' !! path = files sb !! path).
Proof.
  revert sb. induction callFiles as [|f rest IH]; intros sb Hrun.
  - injection Hrun as _ <-. split; [done|].
    split; [by intros file ?%elem_of_nil | done].
  - rewrite for_of_cons, copy_entry in Hrun.
    destruct (readFile (path_join [dir; f])) as [buf|e] eqn:Hbuf; [|done].
    destruct (refuse (files sb) [(lit "calls/" ++ f, buf)])
      as [[e fs']|]; [done|].
    destruct (IH _ Hrun) as (Hcommands & Hcopied & Hframe).
    split; [done|]. split.
    + intros file [->|Hfile]%elem_of_cons; [|by apply Hcopied].
      exists buf. split; [done|].
      destruct (decide (f ∈ rest)) as [Hin|Hout].
      * destruct (Hcopied f Hin) as (buf' & Hbuf' & Hlookup). congruence.
      * rewrite Hframe; [simpl; by rewrite lookup_insert_eq|].
        intros g Hg Heq. apply app_inv_head in Heq. congruence.
    + intros path Hpath. rewrite Hframe.
      * simpl. apply lookup_insert_ne. intros Heq.
        by apply (Hpath f); [left|].
      * intros file Hfile. apply Hpath. by right.
Qed.


End AgentLemmas.

(** ** Claims about [lib/agent.ts] *)

Section AgentClaims.
Import JS Effect Sandbox Tools Agent Described.

(** C6: the agent is constructed from a settings object with exactly three
    fields, a model identifier, an instruction string and a tool set; no
    other field is supplied. *)
Theorem agent_settings_three_fields :
  dom (settings agent) = {[lit "model"; lit "instructions"; lit "tools"]} ∧
  size (settings agent) = 3 ∧
  settings agent !! lit "model"
    = Some (StringValue (lit "anthropic/claude-opus-4.6")) ∧
  settings agent !! lit "instructions" = Some (StringValue (lit "")) ∧
  settings agent !! lit "tools" = Some (ToolSetValue ∅).
Proof.
  assert (lit "model" ≠ lit "tools") as Hmt by discriminate.
  assert (lit "model" ≠ lit "instructions") as Hmi by discriminate.
  assert (lit "tools" ≠ lit "instructions") as Hti by discriminate.
  change (settings agent) with agent_settings. unfold agent_settings.
  split; [|split; [|split; [|split]]].
  - rewrite !dom_insert_L, dom_empty_L. set_solver.
  - rewrite !map_size_insert_None, map_size_empty; [done|..];
      by simplify_map_eq.
  - by simplify_map_eq.
  - by simplify_map_eq.
  - by simplify_map_eq.
Qed.

(** C1, as stated, fails: the tool set of the agent does not hold exactly
    one tool. *)
Lemma agent_tool_set_not_single :
  ¬ ∃ ts : gmap (list N) Tool, tools agent = Some ts ∧ size ts = 1.
Proof.
  intros (ts & Hts & Hsize). rewrite agent_tools in Hts.
  injection Hts as <-. by rewrite map_size_empty in Hsize.
Qed.

(** C1, amended: the tool set of the agent is empty, so no name resolves to a
    tool; the bash tool of the tutorial ([createBashTool], not registered
    with the agent) asks the sandbox to run the generated command line and,
    when the command finishes, returns its stdout, stderr and exit code. *)
Theorem agent_without_tools_bash_tool_relays `{Service}
    (input : ToolInput) (sb : Sandbox.Sandbox)
    (result : CommandFinished) (files' : gmap (list N) (list Byte.byte)) :
  exec (files sb) (command input) (args input) = Normal (result, files') →
  tools agent = Some ∅ ∧
  (∀ name, tools agent ≫= (λ ts, ts !! name) = None) ∧
  execute createBashTool input sb =
    (Normal {| out_stdout := stdout result;
               out_stderr := stderr result;
               out_exitCode := exitCode result |},
     {| files := files';
        commands := commands sb ++ [(command input, args input)] |}).
Proof.
  intros Hexec. split; [apply agent_tools|]. split.
  - intros name. rewrite agent_tools. simpl. apply lookup_empty.
  - unfold createBashTool, execute, mbind, Eff_bind, runCommand.
    by rewrite Hexec.
Qed.

Lemma agent_without_tools_bash_tool_relays_witness :
  execute (createBashTool (H := Fixtures.naming_service))
    {| command := lit "ls"; args := [lit "calls"] |} Fixtures.empty_sandbox
  = (Normal {| out_stdout := lit "ls"; out_stderr := lit "";
               out_exitCode := 0 |},
     {| files := ∅; commands := [(lit "ls", [lit "calls"])] |}).
Proof.
  apply (agent_without_tools_bash_tool_relays (H := Fixtures.naming_service)
           {| command := lit "ls"; args := [lit "calls"] |}
           Fixtures.empty_sandbox
           {| stdout := lit "ls"; stderr := lit ""; exitCode := 0 |} ∅).
  reflexivity.
Defined.

(** C5, as stated, fails: no tool of the agent has a one-field input schema
    (the agent has no tool), and the schema of the tutorial's bash tool does
    not consist of one field. *)
Lemma tool_schema_not_one_field :
  (¬ ∃ (ts : gmap (list N) Tool) name t,
       tools agent = Some ts ∧ ts !! name = Some t ∧
       List.length (inputSchema t) = 1) ∧
  List.length (inputSchema (createBashTool (H := Fixtures.naming_service)))
    ≠ 1.
Proof.
  split; [|discriminate].
  intros (ts & name & t & Hts & Ht & _). rewrite agent_tools in Hts.
  injection Hts as <-. by rewrite lookup_empty in Ht.
Qed.

(** C5, amended: the input schema of the tutorial's bash tool consists of
    exactly two fields, [command] (a string) and [args] (an array of
    strings), and the values of both are passed unmodified to the sandbox's
    [runCommand], whatever the command then does. *)
Theorem bash_tool_schema_forwarded `{Service}
    (input : ToolInput) (sb : Sandbox.Sandbox) :
  inputSchema createBashTool =
    [ (lit "command",
       {| field_type := z_string;
          describe := lit "The bash command to execute" |});
      (lit "args",
       {| field_type := z_array z_string;
          describe := lit "Arguments to pass to the command" |}) ] ∧
  commands (execute createBashTool input sb).2
    = commands sb ++ [(command input, args input)].
Proof.
  split; [done|].
  unfold createBashTool, execute, mbind, Eff_bind, runCommand.
  by destruct (exec (files sb) (command input) (args input)) as [[? ?]|].
Qed.




End AgentClaims.

(** * Further properties of the code *)

(** ** [trim], as [handleSubmit] and the command line of a tool part use it *)

Section TrimLemmas.
Import JS Described.

Lemma trimStart_split (s : list N) :
  ∃ pre, s = pre ++ trimStart s ∧ blank pre.
Proof.
  induction s as [|c s (pre & Heq & Hpre)]; simpl.
  - exists []. split; [done | constructor].
  - destruct (is_trimmed c) eqn:Hc.
    + exists (c :: pre). split; [simpl; congruence | by constructor].
    + exists []. split; [done | constructor].
Qed.

Lemma trimStart_head (s : list N) (c : N) (r : list N) :
  trimStart s = c :: r → is_trimmed c = false.
Proof.
  induction s as [|a s IH]; simpl; [done|].
  destruct (is_trimmed a) eqn:Ha; [done|]. by intros [= <- _].
Qed.

Lemma trimEnd_split (s : list N) :
  ∃ post, s = trimEnd s ++ post ∧ blank post.
Proof.
  unfold trimEnd. destruct (trimStart_split (reverse s)) as (pre & Heq & Hpre).
  exists (reverse pre). split; [|by apply Forall_reverse].
  apply (inj reverse). by rewrite reverse_app, !reverse_involutive.
Qed.

Lemma trimEnd_last (s : list N) (c : N) :
  last (trimEnd s) = Some c → is_trimmed c = false.
Proof.
  unfold trimEnd. rewrite last_reverse.
  destruct (trimStart (reverse s)) as [|a r] eqn:Hs; [done|].
  intros [= <-]. by eapply trimStart_head.
Qed.

Lemma trim_head (s : list N) (c : N) (r : list N) :
  trim s = c :: r → is_trimmed c = false.
Proof.
  unfold trim. intros Htrim.
  destruct (trimEnd_split (trimStart s)) as (post & Heq & _).
  rewrite Htrim in Heq. by eapply trimStart_head.
Qed.

Lemma trimStart_app_blank (s t : list N) :
  blank s → trimStart (s ++ t) = trimStart t.
Proof.
  induction 1 as [|c s Hc _ IH]; [done|]. simpl. by rewrite Hc.
Qed.

Lemma trimStart_app_filled (s t : list N) :
  ¬ blank s → trimStart (s ++ t) = trimStart s ++ t.
Proof.
  induction s as [|c s IH]; intros Hs; [by destruct Hs; constructor|].
  simpl. destruct (is_trimmed c) eqn:Hc; [|done].
  apply IH. intros Hblank. apply Hs. by constructor.
Qed.

Lemma trimEnd_app_blank (s t : list N) :
  blank t → trimEnd (s ++ t) = trimEnd s.
Proof.
  intros Ht. unfold trimEnd. rewrite reverse_app.
  rewrite trimStart_app_blank; [done|]. by apply Forall_reverse.
Qed.

Lemma trim_app_blank (s t : list N) :
  blank t → trim (s ++ t) = trim s.
Proof.
  intros Ht. destruct (decide (blank s)) as [Hs|Hs].
  - transitivity (@nil N); [|symmetry]; apply trim_nil; [|done].
    by apply Forall_app.
  - unfold trim. rewrite trimStart_app_filled by done.
    by apply trimEnd_app_blank.
Qed.

Lemma blank_join (words : list (list N)) :
  blank (join (lit " ") (Some <$> words)) ↔ Forall blank words.
Proof.
  induction words as [|w [|w' rest] IH].
  - split; constructor.
  - simpl. split; [by repeat constructor | by inversion 1].
  - change (join (lit " ") (Some <$> w :: w' :: rest))
      with (w ++ lit " " ++ join (lit " ") (Some <$> w' :: rest)).
    unfold blank at 1. rewrite !Forall_app. fold (blank w).
    fold (blank (join (lit " ") (Some <$> w' :: rest))). rewrite IH.
    split.
    + intros (Hw & _ & Hrest). by constructor.
    + inversion 1; subst. split; [done|]. split; [|done].
      by repeat constructor.
Qed.

End TrimLemmas.

(** ** The rendering of parts in [app/form.tsx] *)

Section FormViewLemmas.
Import JS JSString FormView Described.

Lemma startsWith_app (pat s : list N) : startsWith (pat ++ s) pat = true.
Proof.
  induction pat as [|p pat IH]; simpl; [by destruct s|].
  by rewrite decide_True.
Qed.

(** With the pattern at the front, [replace] swaps the prefix. *)
Lemma replace_prefix (pat rep s : list N) :
  replace (pat ++ s) pat rep = rep ++ s.
Proof.
  assert (∀ s', startsWith s' pat = true →
                replace s' pat rep = rep ++ drop (List.length pat) s') as Hfront.
  { intros s' Hs'. destruct s'; cbn [replace]; by rewrite Hs'. }
  rewrite Hfront by apply startsWith_app. by rewrite drop_app_length.
Qed.

Lemma truthy_nil (s : list N) : truthy s = false ↔ s = [].
Proof. by destruct s. Qed.

End FormViewLemmas.

Section FormViewProperties.
Import JS JSString FormView Described.

Lemma renderPart_tool (part : PartView) (name : list N) :
  type part = lit "tool-" ++ name →
  renderPart part =
    ToolBlock (or_else (toolName part) name)
      (if truthy (bashCommand part) then Some (bashCommand part) else None)
      (outputText_of part).
Proof.
  intros Htype. unfold renderPart, toolName_of. rewrite Htype.
  destruct (decide (lit "tool-" ++ name = lit "text")) as [Heq|_];
    [discriminate Heq|].
  by rewrite startsWith_app, replace_prefix.
Qed.

(** X1: a part whose type is 'tool-' followed by a name is rendered as a tool
    block; the name shown is the part's [toolName] when it has a non-empty
    one, and otherwise the name that follows 'tool-' in the type; the command
    line is shown only when it is not empty. *)
Theorem tool_part_shows_name (part : PartView) (name : list N) :
  type part = lit "tool-" ++ name →
  renderPart part =
    ToolBlock (or_else (toolName part) name)
      (if truthy (bashCommand part) then Some (bashCommand part) else None)
      (outputText_of part).
Proof.
  apply renderPart_tool.
Qed.

Lemma tool_part_shows_name_witness :
  renderPart MoreFixtures.ls_part =
    ToolBlock (lit "bashTool") (Some (lit "ls -l calls"))
      (Some (lit "ls: cannot access")).
Proof.
  exact (tool_part_shows_name MoreFixtures.ls_part (lit "bashTool") eq_refl).
Defined.

(** X2: of the kinds of parts a message can hold, only text parts and tool
    parts are rendered: reasoning, dynamic-tool, source, file and data parts
    and step starts render nothing. *)
Theorem only_text_and_tool_parts_render (p : Ai.UIMessagePart)
    (part : PartView) :
  type part = Ai.part_type p →
  match p with
  | Ai.TextUIPart _ => renderPart part = TextBlock (text part)
  | Ai.ToolUIPart name _ =>
      ∃ line, renderPart part =
              ToolBlock (or_else (toolName part) name) line
                (outputText_of part)
  | _ => renderPart part = Nothing
  end.
Proof.
  intros Htype. destruct p; try (unfold renderPart; rewrite Htype; done).
  eexists. by apply renderPart_tool.
Qed.

Lemma only_text_and_tool_parts_render_witness :
  renderPart {| type := lit "dynamic-tool"; text := None;
                toolCallId := lit "call_2";
                toolName := Some (lit "bashTool");
                state := Some (lit "output-available");
                input := None; output := None |} = Nothing.
Proof.
  exact (only_text_and_tool_parts_render
           (Ai.DynamicToolUIPart (lit "bashTool") (lit "call_2"))
           {| type := lit "dynamic-tool"; text := None;
              toolCallId := lit "call_2";
              toolName := Some (lit "bashTool");
              state := Some (lit "output-available");
              input := None; output := None |} eq_refl).
Defined.

(** X3: the command line of a tool part never starts or ends with white
    space, and it is empty exactly when the part has no input, or the
    command is missing or blank and every argument is blank. *)
Theorem bashCommand_trimmed (part : PartView) :
  (bashCommand part = [] ↔
     input part = None ∨
     ∃ i, input part = Some i ∧
          blank (or_else (command i) (lit "")) ∧
          Forall blank (default [] (args i))) ∧
  (∀ c r, bashCommand part = c :: r → is_trimmed c = false) ∧
  (∀ c, last (bashCommand part) = Some c → is_trimmed c = false).
Proof.
  unfold bashCommand. destruct (input part) as [i|]; simpl.
  - split; [|split].
    + rewrite trim_nil. fold (blank (or_else (command i) []
        ++ 32%N :: join [32%N] (Some <$> default [] (args i)))).
      unfold blank at 1. rewrite Forall_app, Forall_cons.
      fold (blank (or_else (command i) [])).
      fold (blank (join [32%N] (Some <$> default [] (args i)))).
      rewrite (blank_join (default [] (args i))). split.
      * intros (Hc & _ & Hargs). right. by exists i.
      * intros [|(i' & [= <-] & Hc & Hargs)]; [done|]. done.
    + intros c r. apply trim_head.
    + intros c. apply trimEnd_last.
  - split; [|split]; [|done..]. split; [by left | done].
Qed.

Lemma bashCommand_trimmed_witness :
  is_trimmed 0x6C = false ∧ is_trimmed 0x73 = false.
Proof.
  split.
  - exact (proj1 (proj2 (bashCommand_trimmed MoreFixtures.ls_part))
             _ _ eq_refl).
  - exact (proj2 (proj2 (bashCommand_trimmed MoreFixtures.ls_part))
             _ eq_refl).
Defined.

(** X4: for a tool part without arguments (missing or empty [args]), the
    command line is the command trimmed: the space the template puts
    after the command does not show. *)
Theorem bashCommand_without_args (part : PartView) (i : ToolInputView) :
  input part = Some i →
  args i = None ∨ args i = Some [] →
  bashCommand part = trim (or_else (command i) (lit "")).
Proof.
  intros Hinput Hargs. unfold bashCommand. rewrite Hinput.
  assert (default [] (args i) = []) as -> by (by destruct Hargs as [->| ->]).
  apply trim_app_blank. by repeat constructor.
Qed.

Lemma bashCommand_without_args_witness :
  bashCommand {| type := lit "tool-bashTool"; text := None;
                 toolCallId := lit "call_3"; toolName := None;
                 state := None;
                 input := Some {| command := Some (lit " pwd");
                                  args := Some [] |};
                 output := None |} = lit "pwd".
Proof.
  exact (bashCommand_without_args
           {| type := lit "tool-bashTool"; text := None;
              toolCallId := lit "call_3"; toolName := None;
              state := None;
              input := Some {| command := Some (lit " pwd");
                               args := Some [] |};
              output := None |}
           {| command := Some (lit " pwd"); args := Some [] |}
           eq_refl (or_intror eq_refl)).
Defined.

(** X5: the output element of a tool part is rendered only in state
    'output-available' with an output present; its text is never empty: it
    is stdout when that is not empty, otherwise stderr when that is not
    empty, otherwise '(no output)'. *)
Theorem outputText_shown (part : PartView) (shown : list N) :
  outputText_of part = Some shown →
  state part = Some (lit "output-available") ∧
  shown ≠ [] ∧
  ∃ o, output part = Some o ∧
       match stdout o, stderr o with
       | Some (c :: out), _ => shown = c :: out
       | _, Some (c :: err) => shown = c :: err
       | _, _ => shown = lit "(no output)"
       end.
Proof.
  unfold outputText_of.
  destruct (state part) as [s|]; [|done].
  destruct (output part) as [o|]; [|done].
  destruct (decide (s = lit "output-available")) as [->|]; [|done].
  intros [= <-]. split; [done|].
  destruct (stdout o) as [[|c out]|] eqn:Hout,
           (stderr o) as [[|c' err]|] eqn:Herr;
    simpl; (split; [discriminate|]); exists o; by rewrite Hout, ?Herr.
Qed.

Lemma outputText_shown_witness :
  state MoreFixtures.ls_part = Some (lit "output-available") ∧
  lit "ls: cannot access" ≠ [] ∧
  ∃ o, output MoreFixtures.ls_part = Some o ∧
       lit "ls: cannot access" = lit "ls: cannot access".
Proof.
  destruct (outputText_shown MoreFixtures.ls_part (lit "ls: cannot access")
              eq_refl) as (Hstate & Hfilled & o & Ho & _).
  split; [exact Hstate|]. split; [exact Hfilled|]. exists o.
  split; [exact Ho | reflexivity].
Defined.

End FormViewProperties.

Section FormProperties.
Import JS Form Described.

(** X6: submitting twice in a row sends at most one message: after a
    submit, a second submit on the resulting state changes nothing; and every
    submit prevents the default action of the event. *)
Theorem handleSubmit_twice (st : State) :
  handleSubmit (handleSubmit st) = handleSubmit st ∧
  defaultPrevented (handleSubmit st) = true ∧
  (sent (handleSubmit st) = sent st ∨
   sent (handleSubmit st) = sent st ++ [input st]).
Proof.
  unfold handleSubmit; simpl.
  destruct (truthy (trim (input st))) eqn:Htrim; simpl.
  - split; [done|]. split; [done | by right].
  - rewrite Htrim. split; [done|]. split; [done | by left].
Qed.

End FormProperties.

(** ** Further properties of [app/api/route.ts] *)

Section RouteProperties.
Import JS Effect Ai Agent Route Described.

(** X7: a request without a messages array.  When the body cannot be read
    as JSON, or its messages are undefined or null, the handler throws before
    any stream is built: no agent run is started, nothing is logged and no
    response is returned.  When its messages are a boolean, a number or a
    string, the handler does not throw: it starts a run with the empty prompt
    and returns a response. *)
Theorem POST_without_messages_array `{AgentRuntime}
    (request : Request) (st : Store) :
  ((∃ e, json request = Throw e) ∨
   (∃ b, json request = Normal b ∧ messages_value b = Absent) →
   ∃ e, POST request st = (Throw e, st)) ∧
  (∀ b p,
     json request = Normal b → messages_value b = PrimitiveValue p →
     ∃ response st',
       POST request st = (Normal response, st') ∧
       runs st' = runs st ++ [lit ""]).
Proof.
  split.
  - intros [[e Hjson] | (b & Hjson & Hms)].
    + exists e. by apply POST_json_throws.
    + destruct (POST_no_messages request b st Hjson Hms) as [message ->].
      eauto.
  - intros b p Hjson Hp. rewrite (POST_primitive request b p st Hjson Hp).
    by eexists _, _.
Qed.

Lemma POST_without_messages_array_witness :
  (∃ e, POST (H := Fixtures.echo_runtime)
          {| json := Throw (SyntaxError
                              (lit "Unexpected end of JSON input")) |}
          Fixtures.empty_store = (Throw e, Fixtures.empty_store)) ∧
  (∃ response st',
     POST (H := Fixtures.echo_runtime)
       {| json := Normal {| messages_value :=
                              PrimitiveValue (PString (lit "abc")) |} |}
       Fixtures.empty_store = (Normal response, st') ∧
     runs st' = [] ++ [lit ""]).
Proof.
  split.
  - apply (proj1 (POST_without_messages_array (H := Fixtures.echo_runtime)
                    {| json := Throw (SyntaxError
                                        (lit "Unexpected end of JSON input")) |}
                    Fixtures.empty_store)).
    left. eexists. reflexivity.
  - exact (proj2 (POST_without_messages_array (H := Fixtures.echo_runtime)
                    {| json := Normal {| messages_value :=
                                           PrimitiveValue
                                             (PString (lit "abc")) |} |}
                    Fixtures.empty_store)
             _ (PString (lit "abc")) eq_refl eq_refl).
Defined.

Lemma handleSubmit_filled (st : Form.State) :
  ¬ blank (Form.input st) →
  Form.handleSubmit st =
    {| Form.input := []; Form.sent := Form.sent st ++ [Form.input st];
       Form.defaultPrevented := true |}.
Proof.
  intros Hfilled. unfold Form.handleSubmit; simpl.
  destruct (truthy (trim (Form.input st))) eqn:Htrim; [done|].
  by apply truthy_trim in Htrim.
Qed.

(** X8: the prompt is taken from the last message whatever its role and id:
    a trailing assistant or system message is used like a user message. *)
Theorem prompt_ignores_role (ms : list UIMessage) (id1 id2 : list N)
    (role1 role2 : Role) (ps : option (list UIMessagePart)) :
  prompt_of (ms ++ [{| id := id1; role := role1; parts := ps |}]) =
  prompt_of (ms ++ [{| id := id2; role := role2; parts := ps |}]).
Proof. rewrite !prompt_of_last, !last_snoc. done. Qed.

(** X9: what the form sends reaches the agent unchanged: when a non-blank
    input is submitted, and the text handed to [sendMessage] arrives as the
    single text part of the last message, the prompt of the run is the
    input as typed, white space around it included, and it is not empty. *)
Theorem submitted_text_is_prompt (st : Form.State)
    (history : list UIMessage) (id : list N) :
  ¬ blank (Form.input st) →
  ∃ text,
    Form.sent (Form.handleSubmit st) = Form.sent st ++ [text] ∧
    prompt_of (history ++
               [{| id := id; role := user;
                   parts := Some [TextUIPart text] |}]) = Form.input st ∧
    Form.input st ≠ [].
Proof.
  intros Hfilled. exists (Form.input st).
  split; [by rewrite handleSubmit_filled|]. split.
  - rewrite prompt_of_last, last_snoc. done.
  - intros Hnil. apply Hfilled. rewrite Hnil. constructor.
Qed.

End RouteProperties.

Lemma submitted_text_is_prompt_witness :
  ∃ text,
    Form.sent (Form.handleSubmit
                 {| Form.input := JS.lit " hi "; Form.sent := [];
                    Form.defaultPrevented := false |}) = [] ++ [text] ∧
    Route.prompt_of
      ([Fixtures.user_message Fixtures.hello_parts] ++
       [{| Ai.id := JS.lit "m2"; Ai.role := Ai.user;
           Ai.parts := Some [Ai.TextUIPart text] |}]) = JS.lit " hi " ∧
    JS.lit " hi " ≠ [].
Proof.
  apply (submitted_text_is_prompt
           {| Form.input := JS.lit " hi "; Form.sent := [];
              Form.defaultPrevented := false |}
           [Fixtures.user_message Fixtures.hello_parts] (JS.lit "m2")).
  unfold Described.blank; simpl. intros Hblank.
  inversion Hblank as [|? ? _ Hrest]. inversion Hrest as [|? ? Hh _].
  discriminate Hh.
Defined.

(** ** Further properties of the tutorial's copy loop *)

Section CopyLemmas.
Import JS Effect Sandbox Tools Agent Described.




Lemma loadSandboxFiles_run `{Host} `{Service} (callFiles : list (list N))
    (sb : Sandbox.Sandbox) :
  readdir (path_join [cwd; lit "lib"; lit "calls"]) = Normal callFiles →
  loadSandboxFiles sb =
  for_of callFiles (λ file,
    buffer ← await (readFile
                      (path_join [path_join [cwd; lit "lib"; lit "calls"];
                                  file]));
    writeFiles [(lit "calls/" ++ file, buffer)]) sb.
Proof.
  intros Hdir. unfold loadSandboxFiles, mbind, Eff_bind, await at 1.
  by rewrite Hdir.
Qed.

(** A completed copy has listed the directory. *)
Lemma loadSandboxFiles_listed `{Host} `{Service} (sb sb' : Sandbox.Sandbox)
    (u : unit) :
  loadSandboxFiles sb = (Normal u, sb') →
  ∃ callFiles,
    readdir (path_join [cwd; lit "lib"; lit "calls"]) = Normal callFiles.
Proof.
  intros Hrun.
  destruct (readdir (path_join [cwd; lit "lib"; lit "calls"]))
    as [callFiles|e] eqn:Hdir; [by exists callFiles|].
  unfold loadSandboxFiles, mbind, Eff_bind, await at 1 in Hrun.
  by rewrite Hdir in Hrun.
Qed.

End CopyLemmas.

Section TutorialProperties.
Import JS Effect Sandbox Tools Agent Described.



(** X12: a completed copy writes exactly the entries of the directory: the
    files of the sandbox afterwards are those it had together with
    [calls/f] for each entry [f]; every other path keeps its content, and no
    command has run. *)
Theorem loadSandboxFiles_footprint `{Host} `{Service}
    (callFiles : list (list N)) (sb sb' : Sandbox.Sandbox) :
  readdir (path_join [cwd; lit "lib"; lit "calls"]) = Normal callFiles →
  loadSandboxFiles sb = (Normal (), sb') →
  commands sb' = commands sb ∧
  dom (files sb') =
    dom (files sb) ∪ list_to_set ((λ f, lit "calls/" ++ f) <$> callFiles) ∧
  ∀ path, path ∉ (λ f, lit "calls/" ++ f) <$> callFiles →
          files sb' !! path = files sb !! path.
Proof.
  intros Hdir Hrun. rewrite (loadSandboxFiles_run callFiles) in Hrun by done.
  destruct (copy_loop_completed _ _ _ _ _ Hrun)
    as (Hcommands & Hcopied & Hframe).
  assert (∀ path, path ∉ (λ f, lit "calls/" ++ f) <$> callFiles →
                  files sb' !! path = files sb !! path) as Hkept.
  { intros path Hpath. apply Hframe. intros file Hfile ->.
    apply Hpath, list_elem_of_fmap. eauto. }
  split; [done|]. split; [|done].
  apply set_eq. intros path.
  rewrite elem_of_union, !elem_of_dom, elem_of_list_to_set.
  destruct (decide (path ∈ (λ f, lit "calls/" ++ f) <$> callFiles))
    as [Hin|Hout].
  - split; [by right|]. intros _.
    apply list_elem_of_fmap in Hin as (file & -> & Hfile).
    destruct (Hcopied file Hfile) as (buffer & _ & ->). eauto.
  - rewrite Hkept by done. split; [by left | by intros [?|?]].
Qed.

Lemma loadSandboxFiles_footprint_witness :
  dom (<[lit "calls/1.md" := [Byte.x68; Byte.x69]]>
         (∅ : gmap (list N) (list Byte.byte)))
  = ∅ ∪ list_to_set [lit "calls/1.md"].
Proof.
  exact (proj1 (proj2 (loadSandboxFiles_footprint
                         (H := Fixtures.one_call_host)
                         (H0 := Fixtures.naming_service) [lit "1.md"]
                         Fixtures.empty_sandbox
                         {| files := <[lit "calls/1.md" :=
                                         [Byte.x68; Byte.x69]]> ∅;
                            commands := [] |}
                         eq_refl eq_refl))).
Defined.



End TutorialProperties.

(** ** The finished module of the tutorial *)

Section FinishedModule.
Import JS Effect Sandbox Tools Agent Described.
Context `{Host} `{Service} `{Tutorial.Provisioning}.

(** The module body once the sandbox has been handed out. *)
Lemma finished_module_run (w : World)
    (fs : gmap (list N) (list Byte.byte)) :
  Tutorial.created = Normal fs →
  Tutorial.load_module w =
  match loadSandboxFiles {| files := fs; commands := [] |} with
  | (Normal _, sb') =>
      (Normal
         {| Tutorial.settings :=
              <[lit "tools" :=
                  Tutorial.ToolSetValue
                    {[ lit "bashTool" :=
                         {| Tutorial.tool := createBashTool;
                            Tutorial.sandbox := List.length (sandboxes w) |} ]}]>
                (<[lit "instructions" :=
                     Tutorial.StringValue Tutorial.INSTRUCTIONS]>
                   (<[lit "model" :=
                        Tutorial.StringValue Tutorial.MODEL]> ∅)) |},
       {| sandboxes := sandboxes w ++ [sb'] |})
  | (Throw e, sb') => (Throw e, {| sandboxes := sandboxes w ++ [sb'] |})
  end.
Proof.
  intros Hcreated.
  unfold Tutorial.load_module, mbind, Eff_bind, Tutorial.Sandbox_create.
  rewrite Hcreated. unfold Tutorial.on_sandbox. simpl.
  rewrite list_lookup_middle by done.
  destruct (loadSandboxFiles {| files := fs; commands := [] |})
    as [[[]|e] sb'];
    rewrite insert_app_r_alt, Nat.sub_diag by done; done.
Qed.

Lemma finished_module_refused (w : World) (e : Error) :
  Tutorial.created = Throw e →
  Tutorial.load_module w =
    (Throw e, {| sandboxes := Tutorial.leftover (sandboxes w) |}).
Proof.
  intros Hcreated.
  unfold Tutorial.load_module, mbind, Eff_bind, Tutorial.Sandbox_create.
  by rewrite Hcreated.
Qed.

(** What a loaded module has done. *)
Lemma finished_module_inversion (w w' : World)
    (a : Tutorial.ToolLoopAgent) :
  Tutorial.load_module w = (Normal a, w') →
  ∃ fs sb',
    Tutorial.created = Normal fs ∧
    loadSandboxFiles {| files := fs; commands := [] |} = (Normal (), sb') ∧
    w' = {| sandboxes := sandboxes w ++ [sb'] |} ∧
    Tutorial.tools a =
      Some {[ lit "bashTool" :=
                {| Tutorial.tool := createBashTool;
                   Tutorial.sandbox := List.length (sandboxes w) |} ]}.
Proof.
  intros Hload.
  destruct Tutorial.created as [fs|e] eqn:Hcreated.
  2: { by rewrite (finished_module_refused w e Hcreated) in Hload. }
  rewrite (finished_module_run w fs Hcreated) in Hload.
  destruct (loadSandboxFiles {| files := fs; commands := [] |})
    as [[[]|e] sb'] eqn:Hcopy; [|done].
  injection Hload as <- <-. exists fs, sb'.
  split; [done|]. split; [done|]. split; [done|].
  unfold Tutorial.tools; simpl. by rewrite lookup_insert_eq.
Qed.

(** X14: when the finished module has loaded, the startup is complete: one
    sandbox has been created and added to those of the service, which are
    untouched; the directory has been listed and every entry [f] is in the
    new sandbox at [calls/f] with the local content, its other files being
    those it was created with; no command has run in it; and the agent has
    exactly one tool, [bashTool], which is [createBashTool] bound to that
    sandbox. *)
Theorem finished_module_loaded (w w' : World)
    (a : Tutorial.ToolLoopAgent) :
  Tutorial.load_module w = (Normal a, w') →
  ∃ fs callFiles sb',
    Tutorial.created = Normal fs ∧
    readdir (path_join [cwd; lit "lib"; lit "calls"]) = Normal callFiles ∧
    sandboxes w' = sandboxes w ++ [sb'] ∧
    Tutorial.tools a =
      Some {[ lit "bashTool" :=
                {| Tutorial.tool := createBashTool;
                   Tutorial.sandbox := List.length (sandboxes w) |} ]} ∧
    commands sb' = [] ∧
    (∀ file, file ∈ callFiles →
       ∃ buffer,
         readFile (path_join [path_join [cwd; lit "lib"; lit "calls"]; file])
         = Normal buffer ∧
         files sb' !! (lit "calls/" ++ file) = Some buffer) ∧
    (∀ path, (∀ file, file ∈ callFiles → path ≠ lit "calls/" ++ file) →
             files sb' !! path = fs !! path).
Proof.
  intros Hload.
  destruct (finished_module_inversion w w' a Hload)
    as (fs & sb' & Hcreated & Hcopy & -> & Htools).
  destruct (loadSandboxFiles_listed _ _ _ Hcopy) as [callFiles Hdir].
  rewrite (loadSandboxFiles_run callFiles) in Hcopy by done.
  destruct (copy_loop_completed _ _ _ _ _ Hcopy)
    as (Hcommands & Hcopied & Hframe).
  by exists fs, callFiles, sb'.
Qed.

(** X15: a call of the tool of the loaded agent runs in the sandbox created
    at startup: the command line is sent to that sandbox, as its first
    command and on the files the startup left there; when the command
    finishes the call returns its stdout, stderr and exit code, and the other
    sandboxes of the service are untouched. *)
Theorem finished_tool_runs_in_new_sandbox (w w' : World)
    (a : Tutorial.ToolLoopAgent) (ts : gmap (list N) Tutorial.BoundTool)
    (t : Tutorial.BoundTool) (input : ToolInput) :
  Tutorial.load_module w = (Normal a, w') →
  Tutorial.tools a = Some ts → ts !! lit "bashTool" = Some t →
  ∃ sb',
    sandboxes w' = sandboxes w ++ [sb'] ∧
    ∀ result files',
      exec (files sb') (command input) (args input)
        = Normal (result, files') →
      Tutorial.call t input w' =
        (Normal {| out_stdout := stdout result;
                   out_stderr := stderr result;
                   out_exitCode := exitCode result |},
         {| sandboxes :=
              sandboxes w ++
              [{| files := files';
                  commands := [(command input, args input)] |}] |}).
Proof.
  intros Hload Hts Ht.
  destruct (finished_module_inversion w w' a Hload)
    as (fs & sb' & Hcreated & Hcopy & -> & Htools).
  rewrite Htools in Hts. injection Hts as <-.
  rewrite lookup_singleton_eq in Ht. injection Ht as <-.
  destruct (loadSandboxFiles_listed _ _ _ Hcopy) as [callFiles Hdir].
  rewrite (loadSandboxFiles_run callFiles) in Hcopy by done.
  destruct (copy_loop_completed _ _ _ _ _ Hcopy) as (Hcommands & _ & _).
  exists sb'. split; [done|]. intros result files' Hexec.
  unfold Tutorial.call, Tutorial.on_sandbox. simpl.
  rewrite list_lookup_middle by done.
  unfold createBashTool, execute, mbind, Eff_bind, runCommand.
  rewrite Hexec, Hcommands. simpl.
  by rewrite insert_app_r_alt, Nat.sub_diag by done.
Qed.

End FinishedModule.

Lemma finished_module_loaded_witness :
  ∃ fs callFiles sb',
    Tutorial.created (Provisioning := MoreFixtures.empty_provisioning)
    = JS.Normal fs ∧
    callFiles = [JS.lit "1.md"] ∧
    Sandbox.files sb' !! JS.lit "calls/1.md" = Some [Byte.x68; Byte.x69] ∧
    Sandbox.commands sb' = [].
Proof.
  destruct (finished_module_loaded (H := Fixtures.one_call_host)
              (H0 := Fixtures.naming_service)
              (H1 := MoreFixtures.empty_provisioning)
              {| Agent.sandboxes := [] |} _ _ eq_refl)
    as (fs & callFiles & sb' & Hcreated & Hdir & _ & _ & Hcommands
        & Hcopied & _).
  injection Hdir as <-.
  exists fs, [JS.lit "1.md"], sb'. split; [exact Hcreated|].
  split; [reflexivity|]. split; [|exact Hcommands].
  destruct (Hcopied (JS.lit "1.md")) as (buffer & Hbuffer & Hlookup);
    [by left|].
  injection Hbuffer as <-. exact Hlookup.
Defined.

Lemma finished_tool_runs_in_new_sandbox_witness :
  ∃ sb',
    [{| Sandbox.files :=
          <[JS.lit "calls/1.md" := [Byte.x68; Byte.x69]]> ∅;
        Sandbox.commands := [] |}] = [] ++ [sb'] ∧
    Tutorial.call
      {| Tutorial.tool :=
           Tools.createBashTool (H := Fixtures.naming_service);
         Tutorial.sandbox := 0 |}
      {| Tools.command := JS.lit "ls"; Tools.args := [JS.lit "calls"] |}
      {| Agent.sandboxes :=
           [{| Sandbox.files :=
                 <[JS.lit "calls/1.md" := [Byte.x68; Byte.x69]]> ∅;
               Sandbox.commands := [] |}] |}
    = (JS.Normal {| Tools.out_stdout := JS.lit "ls";
                    Tools.out_stderr := JS.lit "";
                    Tools.out_exitCode := 0 |},
       {| Agent.sandboxes :=
            [] ++
            [{| Sandbox.files :=
                  <[JS.lit "calls/1.md" := [Byte.x68; Byte.x69]]> ∅;
                Sandbox.commands :=
                  [(JS.lit "ls", [JS.lit "calls"])] |}] |}).
Proof.
  destruct (finished_tool_runs_in_new_sandbox (H := Fixtures.one_call_host)
              (H0 := Fixtures.naming_service)
              (H1 := MoreFixtures.empty_provisioning)
              {| Agent.sandboxes := [] |} _ _ _ _
              {| Tools.command := JS.lit "ls";
                 Tools.args := [JS.lit "calls"] |}
              eq_refl eq_refl eq_refl)
    as (sb' & Hworld & Hcall).
  exists sb'. split; [exact Hworld|].
  injection Hworld as <-.
  exact (Hcall _ _ eq_refl).
Defined.
